(** * Paddle inference API: the buffer, the enumerations and the predictor
      declarations of [paddle/fluid/inference/api/paddle_inference_api.h]

    The header declares [PaddleBuf], an owned-or-borrowed byte buffer, the
    element type and engine kind enumerations, the abstract
    [PaddlePredictor] and the predictor factory.  The inline member
    functions are embedded as they are written; the out-of-line ones
    ([Free], [Reset], the move operations, [PaddleDtypeSize]) have no body
    in the header and are modelled from the specification, each one marked
    as such. *)

From stdpp Require Import base option numbers gmap.

Local Open Scope N_scope.

(** ** Memory

    A [void*] is an address, [0] being [nullptr]; a [size_t] is a natural
    number (no arithmetic is performed on lengths in the header, so no
    wrap-around arises).  The free store maps the base address of every
    live array to its number of bytes, whoever allocated it. *)

Definition ptr := N.
Definition size_t := N.
Definition nullptr : ptr := 0.

Abbreviation heap := (gmap N N).

(** [new char[length]]: storage that is not null and not live before the
    call.  Exhaustion ([std::bad_alloc]) aborts the constructor, so that no
    buffer exists in that case; the model covers the runs in which
    the allocation returns. *)
Definition new_char_array (length : size_t) (h : heap) : ptr * heap :=
  let p := fresh ({[nullptr]} ∪ dom h) in (p, <[p := length]> h).

(** [delete[] p]: nothing for [nullptr], releases a live array, and is
    undefined ([None]) for an address that is not live. *)
Definition delete_array (p : ptr) (h : heap) : option heap :=
  if decide (p = nullptr) then Some h
  else match h !! p with
       | Some _ => Some (delete p h)
       | None => None
       end.

(** ** [enum PaddleDType] *)

Inductive PaddleDType := FLOAT32 | INT64.

(** Modelled from the spec: the body of [PaddleDtypeSize] is not in the
    header, which only declares [int PaddleDtypeSize(PaddleDType dtype)].
    "[PaddleDtypeSize] returns 4 for the float tag and 8 for the integer
    tag". *)
Definition PaddleDtypeSize (dtype : PaddleDType) : Z :=
  match dtype with
  | FLOAT32 => 4%Z
  | INT64 => 8%Z
  end.

(** ** [class PaddleBuf] *)

Module PaddleBuf.

(** The private members, with their default member initialisers
    [data_{nullptr}], [length_{0}], [memory_owned_{true}]. *)
Record t := Build {
  data_ : ptr;
  length_ : size_t;
  memory_owned_ : bool
}.

(** [PaddleBuf() = default] *)
Definition ctor_default : t :=
  {| data_ := nullptr; length_ := 0; memory_owned_ := true |}.

(** [PaddleBuf(void* data, size_t length)]: "Do not own the memory." *)
Definition ctor_external (data : ptr) (length : size_t) : t :=
  {| data_ := data; length_ := length; memory_owned_ := false |}.

(** [explicit PaddleBuf(size_t length)]: "Own memory." *)
Definition ctor_owning (length : size_t) (h : heap) : t * heap :=
  let '(p, h') := new_char_array length h in
  ({| data_ := p; length_ := length; memory_owned_ := true |}, h').

(** [bool empty() const { return length_ == 0; }] *)
Definition empty (b : t) : bool := length_ b =? 0.

(** [void* data() const { return data_; }] *)
Definition data (b : t) : ptr := data_ b.

(** [size_t length() const { return length_; }] *)
Definition length (b : t) : size_t := length_ b.

(** Modelled from the spec: the body of the private [Free] is not in the
    header.  "freeing memory is only performed when ownership is
    exclusive"; "Destroying a buffer that owns memory must not leave
    the memory reachable afterward (no double free across repeated
    destroy calls)": an owning buffer releases its array and forgets
    it, a borrowing one is left as it is. *)
Definition Free (b : t) (h : heap) : option (t * heap) :=
  if memory_owned_ b then
    h' ← delete_array (data_ b) h;
    Some ({| data_ := nullptr; length_ := 0; memory_owned_ := true |}, h')
  else Some (b, h).

(** [~PaddleBuf() { Free(); }]: the object is gone afterwards, the free
    store remains. *)
Definition dtor (b : t) (h : heap) : option heap :=
  snd <$> Free b h.

(** Modelled from the spec: the body of [Reset] is not in the header.
    "Resetting a buffer to new external memory releases any previously
    owned memory and does not take ownership of the new memory." *)
Definition Reset (data : ptr) (length : size_t) (b : t) (h : heap)
  : option (t * heap) :=
  '(_, h') ← Free b h;
  Some ({| data_ := data; length_ := length; memory_owned_ := false |}, h').

(** Buffer objects live at addresses: the operations below take two
    buffers through [this] and the reference [other], and read and
    write their members in place. *)
Abbreviation objects := (gmap N t).

(** Modelled from the spec: the body of [PaddleBuf(PaddleBuf&& other)]
    is not in the header.  "Move construction/assignment transfers
    ownership and nulls out the source."  The object under construction
    takes storage [this] that holds no object yet. *)
Definition ctor_move (this other : N) (σ : objects) : option objects :=
  match σ !! this with
  | Some _ => None
  | None =>
      src ← σ !! other;
      let σ1 := <[this := {| data_ := data_ src; length_ := length_ src;
                             memory_owned_ := memory_owned_ src |}]> σ in
      Some (<[other := {| data_ := nullptr; length_ := 0;
                          memory_owned_ := false |}]> σ1)
  end.

(** Modelled from the spec: the body of [operator=(PaddleBuf&&)] is not
    in the header.  "Move construction/assignment transfers ownership
    and nulls out the source."  Both objects exist; the members of
    [other] are read, stored into [this], and then cleared. *)
Definition assign_move (this other : N) (σ : objects) : option objects :=
  _ ← σ !! this;
  src ← σ !! other;
  let σ1 := <[this := {| data_ := data_ src; length_ := length_ src;
                         memory_owned_ := memory_owned_ src |}]> σ in
  Some (<[other := {| data_ := nullptr; length_ := 0;
                      memory_owned_ := false |}]> σ1).

End PaddleBuf.

(** What a move from [other] (holding [src]) into [this] leaves behind
    in the objects [σ']: [this] holds the members of [src], [other] is
    null, of length zero and non-owning, and the objects besides the two
    are as they were in [σ]. *)
Definition moved (this other : N) (src : PaddleBuf.t)
    (σ σ' : PaddleBuf.objects) : Prop :=
  (∃ dst, σ' !! this = Some dst
          ∧ PaddleBuf.data dst = PaddleBuf.data src
          ∧ PaddleBuf.length dst = PaddleBuf.length src
          ∧ PaddleBuf.memory_owned_ dst = PaddleBuf.memory_owned_ src)
  ∧ (∃ src', σ' !! other = Some src'
             ∧ PaddleBuf.data src' = nullptr
             ∧ PaddleBuf.length src' = 0
             ∧ PaddleBuf.empty src' = true
             ∧ PaddleBuf.memory_owned_ src' = false)
  ∧ (∀ o, o ≠ this → o ≠ other → σ' !! o = σ !! o).

(** ** [enum class PaddleEngineKind] *)

Inductive PaddleEngineKind :=
  | kNative
  | kAnakin
  | kAutoMixedTensorRT
  | kAnalysis.

(** The enumerators in declaration order. *)
Definition PaddleEngineKind_enumerators : list PaddleEngineKind :=
  [kNative; kAnakin; kAutoMixedTensorRT; kAnalysis].

(** The underlying values: [kNative = 0] is written out, every following
    enumerator is one more than its predecessor. *)
Definition PaddleEngineKind_value (e : PaddleEngineKind) : Z :=
  match e with
  | kNative => 0%Z
  | kAnakin => 1%Z
  | kAutoMixedTensorRT => 2%Z
  | kAnalysis => 3%Z
  end.

(** The engine with which
    [template <typename ConfigT, PaddleEngineKind engine = PaddleEngineKind::kNative>
     CreatePaddlePredictor(const ConfigT& config)]
    is instantiated: the template argument when one is written, the
    default otherwise. *)
Definition CreatePaddlePredictor_engine (engine : option PaddleEngineKind)
  : PaddleEngineKind :=
  default kNative engine.

(** ** [class PaddlePredictor]: its declarations *)

Module PaddlePredictor.

Inductive special_member :=
  | default_ctor | copy_ctor | copy_assign | move_ctor | move_assign | dtor.

(** [= default] and [= delete]. *)
Inductive definition := defaulted | deleted.

#[global] Instance definition_eq_dec : EqDecision definition.
Proof. solve_decision. Defined.

(** What the class declares itself:
    [PaddlePredictor() = default;]
    [PaddlePredictor(const PaddlePredictor&) = delete;]
    [PaddlePredictor& operator=(const PaddlePredictor&) = delete;]
    [virtual ~PaddlePredictor() = default;]
    and no move operation. *)
Definition declared (m : special_member) : option definition :=
  match m with
  | default_ctor => Some defaulted
  | copy_ctor => Some deleted
  | copy_assign => Some deleted
  | dtor => Some defaulted
  | move_ctor | move_assign => None
  end.

(** C++11: a move operation is declared implicitly only in a class that
    declares no copy operation, no move operation and no destructor. *)
Definition implicit_move : bool :=
  forallb (λ m, bool_decide (declared m = None))
          [copy_ctor; copy_assign; move_ctor; move_assign; dtor].

(** The member that overload resolution selects: a class without a move
    operation moves through its copy operation, whose [const&]
    parameter binds to an rvalue. *)
Definition selected (m : special_member) : option definition :=
  match m, declared m with
  | _, Some d => Some d
  | move_ctor, None =>
      if implicit_move then Some defaulted else declared copy_ctor
  | move_assign, None =>
      if implicit_move then Some defaulted else declared copy_assign
  | _, None => None
  end.

(** The ways of getting a predictor out of an existing one: the four
    copy and move operations and the public member
    [virtual std::unique_ptr<PaddlePredictor> Clone() = 0]. *)
Inductive derivation :=
  | by_copy_ctor | by_copy_assign | by_move_ctor | by_move_assign
  | by_Clone.

(** A use of a deleted function is ill-formed. *)
Definition well_formed (d : derivation) : bool :=
  match d with
  | by_copy_ctor => bool_decide (selected copy_ctor = Some defaulted)
  | by_copy_assign => bool_decide (selected copy_assign = Some defaulted)
  | by_move_ctor => bool_decide (selected move_ctor = Some defaulted)
  | by_move_assign => bool_decide (selected move_assign = Some defaulted)
  | by_Clone => true
  end.

End PaddlePredictor.

(** * Properties *)

Import PaddleBuf (data_, length_, memory_owned_).

(** ** The free store *)

Section free_store.
Implicit Types (h : heap) (p q : ptr) (n : size_t).

Lemma new_char_array_spec n h p h' :
  new_char_array n h = (p, h') →
  p ≠ nullptr ∧ h !! p = None ∧ h' = <[p := n]> h.
Proof.
  unfold new_char_array. intros [= <- <-].
  pose proof (is_fresh ({[nullptr]} ∪ dom h)) as Hfresh.
  split; [set_solver|]. split; [|done].
  apply not_elem_of_dom. set_solver.
Qed.

Lemma delete_array_nullptr h : delete_array nullptr h = Some h.
Proof. done. Qed.

Lemma delete_array_live p h :
  p ≠ nullptr → is_Some (h !! p) → delete_array p h = Some (delete p h).
Proof.
  intros Hp [n Hn]. unfold delete_array.
  destruct (decide (p = nullptr)); [done|]. by rewrite Hn.
Qed.

Lemma delete_array_inv p h h' :
  delete_array p h = Some h' →
  (p = nullptr ∧ h' = h) ∨ (p ≠ nullptr ∧ is_Some (h !! p) ∧ h' = delete p h).
Proof.
  unfold delete_array. destruct (decide (p = nullptr)) as [->|Hp].
  - intros [= <-]. by left.
  - destruct (h !! p) as [n|] eqn:Hn; [|done].
    intros [= <-]. right. eauto.
Qed.

Lemma delete_new_char_array n h p h' :
  new_char_array n h = (p, h') → delete_array p h' = Some h.
Proof.
  intros (Hp & Hnone & ->)%new_char_array_spec.
  rewrite delete_array_live; [|done|by rewrite lookup_insert_eq].
  by rewrite delete_insert_id.
Qed.

End free_store.

(** ** [Free] and the destructor *)

Section buffer.
Implicit Types (b : PaddleBuf.t) (h : heap).

Lemma Free_borrowed b h :
  memory_owned_ b = false → PaddleBuf.Free b h = Some (b, h).
Proof. unfold PaddleBuf.Free. by intros ->. Qed.

Lemma Free_owned b h :
  memory_owned_ b = true →
  PaddleBuf.Free b h =
    (λ h', (PaddleBuf.Build nullptr 0 true, h')) <$> delete_array (data_ b) h.
Proof.
  unfold PaddleBuf.Free. intros ->.
  by destruct (delete_array (data_ b) h).
Qed.

Lemma Free_idempotent b h b' h' :
  PaddleBuf.Free b h = Some (b', h') → PaddleBuf.Free b' h' = Some (b', h').
Proof.
  unfold PaddleBuf.Free at 1. destruct (memory_owned_ b) eqn:Hown.
  - destruct (delete_array (data_ b) h); [|done]. by intros [= <- <-].
  - intros [= <- <-]. by apply Free_borrowed.
Qed.

Lemma dtor_borrowed b h :
  memory_owned_ b = false → PaddleBuf.dtor b h = Some h.
Proof. intros Hb. unfold PaddleBuf.dtor. by rewrite Free_borrowed. Qed.

Lemma dtor_owned b h :
  memory_owned_ b = true → PaddleBuf.dtor b h = delete_array (data_ b) h.
Proof.
  intros Hb. unfold PaddleBuf.dtor. rewrite Free_owned by done.
  by destruct (delete_array (data_ b) h).
Qed.

End buffer.

(** ** Claims about [PaddleBuf] *)

(** C1.  Destruction frees the underlying memory only when the buffer
    owns it.  A buffer constructed from an external [(ptr, length)] is
    marked non-owning and its destructor leaves the free store as it
    was; so does the destructor of any non-owning buffer.  The
    destructor of an owning buffer whose array is live releases exactly
    that array, and the destructor of a buffer built by the owning
    constructor gives back the store from before the construction.
    Whenever a destructor changes the store, the buffer was owning. *)
Theorem C1_destruction_frees_only_owned (b : PaddleBuf.t) (h : heap) :
  (∀ p n, memory_owned_ (PaddleBuf.ctor_external p n) = false
          ∧ PaddleBuf.dtor (PaddleBuf.ctor_external p n) h = Some h)
  ∧ (memory_owned_ b = false → PaddleBuf.dtor b h = Some h)
  ∧ (memory_owned_ b = true → data_ b ≠ nullptr → is_Some (h !! data_ b) →
       ∃ h', PaddleBuf.dtor b h = Some h'
             ∧ h' !! data_ b = None
             ∧ ∀ q, q ≠ data_ b → h' !! q = h !! q)
  ∧ (∀ n bo ho, PaddleBuf.ctor_owning n h = (bo, ho) →
       memory_owned_ bo = true ∧ is_Some (ho !! data_ bo)
       ∧ PaddleBuf.dtor bo ho = Some h)
  ∧ (∀ h', PaddleBuf.dtor b h = Some h' → h' ≠ h → memory_owned_ b = true).
Proof.
  split; [|split; [|split; [|split]]].
  - intros p n. split; [done|]. by apply dtor_borrowed.
  - apply dtor_borrowed.
  - intros Hown Hp Hlive. exists (delete (data_ b) h).
    rewrite dtor_owned, delete_array_live by done.
    split; [done|]. split; [apply lookup_delete_eq|].
    intros q Hq. by apply lookup_delete_ne.
  - intros n bo ho Hctor. unfold PaddleBuf.ctor_owning in Hctor.
    destruct (new_char_array n h) as [p h1] eqn:Hnew.
    injection Hctor as <- <-. split; [done|]. split.
    + apply new_char_array_spec in Hnew as (_ & _ & ->). simpl.
      by rewrite lookup_insert_eq.
    + rewrite dtor_owned by done. simpl. by eapply delete_new_char_array.
  - intros h' Hd Hne. destruct (memory_owned_ b) eqn:Hown; [done|].
    rewrite dtor_borrowed in Hd by done. congruence.
Qed.

Lemma C1_destruction_frees_only_owned_witness :
  PaddleBuf.dtor (PaddleBuf.Build 5 3 false) {[5 := 3]} = Some {[5 := 3]}
  ∧ (∃ h', PaddleBuf.dtor (PaddleBuf.Build 5 3 true) {[5 := 3]} = Some h'
           ∧ h' !! 5 = None)
  ∧ PaddleBuf.dtor (PaddleBuf.Build 2 7 true) {[1 := 3; 2 := 7]}
    = Some {[1 := 3]}.
Proof.
  split; [|split].
  - apply (C1_destruction_frees_only_owned (PaddleBuf.Build 5 3 false)).
    reflexivity.
  - destruct (C1_destruction_frees_only_owned
                (PaddleBuf.Build 5 3 true) {[5 := 3]})
      as (_ & _ & Hrel & _).
    destruct Hrel as (h' & Hd & Hgone & _);
      [reflexivity | discriminate | by eexists |].
    by exists h'.
  - destruct (C1_destruction_frees_only_owned
                (PaddleBuf.Build 5 3 true) {[1 := 3]})
      as (_ & _ & _ & Hnew & _).
    apply (Hnew 7). vm_compute. reflexivity.
Defined.

(** C3.  For a buffer constructed from an external pointer and a length,
    [empty()] is true exactly when the length is 0; the same holds of a
    buffer with these members whatever its ownership flag says. *)
Theorem C3_empty_iff_length_zero (p : ptr) (n : size_t) :
  (PaddleBuf.empty (PaddleBuf.ctor_external p n) = true ↔ n = 0)
  ∧ (∀ owned : bool, PaddleBuf.empty (PaddleBuf.Build p n owned) = true ↔ n = 0)
  ∧ (∀ owned : bool,
       PaddleBuf.empty (PaddleBuf.Build p n owned)
       = PaddleBuf.empty (PaddleBuf.ctor_external p n)).
Proof.
  unfold PaddleBuf.empty, PaddleBuf.ctor_external. simpl.
  split; [apply N.eqb_eq|]. split; [|done].
  intros _. apply N.eqb_eq.
Qed.

(** C4.  A buffer constructed as owning with size [n] has [length()]
    equal to [n] and, whenever [n > 0], a non-null [data()]; the
    constructor always yields such a buffer, which owns a live array of
    [n] bytes that was not live before. *)
Theorem C4_owning_length_and_data (n : size_t) (h : heap) :
  ∃ b h', PaddleBuf.ctor_owning n h = (b, h')
          ∧ PaddleBuf.length b = n
          ∧ (0 < n → PaddleBuf.data b ≠ nullptr)
          ∧ memory_owned_ b = true
          ∧ h !! PaddleBuf.data b = None
          ∧ h' !! PaddleBuf.data b = Some n.
Proof.
  unfold PaddleBuf.ctor_owning.
  destruct (new_char_array n h) as [p h1] eqn:Hnew.
  apply new_char_array_spec in Hnew as (Hp & Hnone & ->).
  eexists _, _. split; [done|]. unfold PaddleBuf.length, PaddleBuf.data. simpl.
  split; [done|]. split; [done|]. split; [done|]. split; [done|].
  apply lookup_insert_eq.
Qed.

Lemma C4_owning_length_and_data_witness :
  0 < 7
  ∧ PaddleBuf.length (PaddleBuf.ctor_owning 7 {[1 := 3]}).1 = 7
  ∧ PaddleBuf.data (PaddleBuf.ctor_owning 7 {[1 := 3]}).1 ≠ nullptr.
Proof.
  destruct (C4_owning_length_and_data 7 {[1 := 3]})
    as (b & h' & -> & Hlen & Hdata & _).
  split; [reflexivity|]. split; [exact Hlen|]. apply Hdata. reflexivity.
Defined.

(** C10.  A default-constructed buffer has a null [data()], [length()]
    0 and [empty()] true, and its ownership flag says owning; freeing or
    destroying it releases nothing and cannot go wrong, in any free
    store. *)
Theorem C10_default_constructed (h : heap) :
  PaddleBuf.data PaddleBuf.ctor_default = nullptr
  ∧ PaddleBuf.length PaddleBuf.ctor_default = 0
  ∧ PaddleBuf.empty PaddleBuf.ctor_default = true
  ∧ memory_owned_ PaddleBuf.ctor_default = true
  ∧ PaddleBuf.Free PaddleBuf.ctor_default h = Some (PaddleBuf.ctor_default, h)
  ∧ PaddleBuf.dtor PaddleBuf.ctor_default h = Some h.
Proof. done. Qed.

(** C6.  [Reset] with a new external pointer and length succeeds on
    every buffer whose destruction is defined (one that borrows, owns
    nothing, or owns a live array).  Whenever it returns, [data()] and
    [length()] are the arguments given and the buffer is non-owning, so
    that destroying it afterwards leaves the new memory alone; an array
    the buffer owned before is no longer live, and nothing else in the
    free store has changed. *)
Theorem C6_Reset_releases_and_borrows
    (p : ptr) (n : size_t) (b : PaddleBuf.t) (h : heap) :
  (memory_owned_ b = false ∨ data_ b = nullptr ∨ is_Some (h !! data_ b) →
     is_Some (PaddleBuf.Reset p n b h))
  ∧ (∀ b' h', PaddleBuf.Reset p n b h = Some (b', h') →
       PaddleBuf.data b' = p
       ∧ PaddleBuf.length b' = n
       ∧ memory_owned_ b' = false
       ∧ PaddleBuf.dtor b' h' = Some h'
       ∧ (memory_owned_ b = true → data_ b ≠ nullptr →
            is_Some (h !! data_ b) ∧ h' !! data_ b = None)
       ∧ (memory_owned_ b = false → h' = h)
       ∧ (∀ q, q ≠ data_ b → h' !! q = h !! q)).
Proof.
  unfold PaddleBuf.Reset. split.
  - intros Hdef. destruct (memory_owned_ b) eqn:Hown.
    + rewrite Free_owned by done.
      destruct Hdef as [?|[Hnull|Hlive]]; [done| |].
      * by rewrite Hnull, delete_array_nullptr.
      * destruct (decide (data_ b = nullptr)) as [Hnull|Hp].
        -- by rewrite Hnull, delete_array_nullptr.
        -- by rewrite delete_array_live.
    + by rewrite Free_borrowed.
  - intros b' h'. destruct (memory_owned_ b) eqn:Hown.
    + rewrite Free_owned by done.
      destruct (delete_array (data_ b) h) as [h1|] eqn:Hdel; [|done].
      simpl. intros [= <- <-].
      do 3 (split; [done|]). split; [by apply dtor_borrowed|].
      apply delete_array_inv in Hdel as [[Hnull ->]|(Hp & Hlive & ->)].
      * repeat split; done.
      * split; [intros _ _; split; [done|apply lookup_delete_eq]|].
        split; [done|]. intros q Hq. by apply lookup_delete_ne.
    + rewrite Free_borrowed by done. simpl. intros [= <- <-].
      do 3 (split; [done|]). split; [by apply dtor_borrowed|].
      repeat split; done.
Qed.

Lemma C6_Reset_releases_and_borrows_witness :
  is_Some (({[5 := 3; 9 := 4]} : heap) !! 5)
  ∧ ∃ h', PaddleBuf.Reset 9 4 (PaddleBuf.Build 5 3 true) {[5 := 3; 9 := 4]}
          = Some (PaddleBuf.ctor_external 9 4, h')
          ∧ h' !! 5 = None ∧ h' !! 9 = Some 4.
Proof.
  split; [by eexists|].
  destruct (C6_Reset_releases_and_borrows
              9 4 (PaddleBuf.Build 5 3 true) {[5 := 3; 9 := 4]})
    as [Htotal Hpost].
  destruct Htotal as [[b' h'] Hreset]; [right; right; by eexists|].
  destruct (Hpost b' h' Hreset)
    as (Hdata & Hlen & Hown & _ & Hrel & _ & Hframe).
  exists h'. destruct b' as [d l o]. simpl in *.
  unfold PaddleBuf.data, PaddleBuf.length in *. simpl in *. subst.
  split; [exact Hreset|]. split.
  - apply Hrel; [reflexivity|discriminate].
  - rewrite Hframe; [reflexivity|discriminate].
Defined.

Lemma moved_intro this other src (σ : PaddleBuf.objects) :
  this ≠ other →
  moved this other src σ
    (<[other := PaddleBuf.Build nullptr 0 false]>
       (<[this := PaddleBuf.Build (data_ src) (length_ src)
                    (memory_owned_ src)]> σ)).
Proof.
  intros Hne. split; [|split].
  - eexists. rewrite lookup_insert_ne by done.
    by rewrite lookup_insert_eq.
  - eexists. by rewrite lookup_insert_eq.
  - intros o Ho1 Ho2. by rewrite !lookup_insert_ne.
Qed.

(** The two objects of a move have to be distinct: one object can be
    both the nulled source and the holder of the original members only
    if it was null, empty and non-owning to begin with. *)
Lemma moved_same_object this src (σ σ' : PaddleBuf.objects) :
  moved this this src σ σ' →
  PaddleBuf.data src = nullptr ∧ PaddleBuf.length src = 0
  ∧ memory_owned_ src = false.
Proof.
  intros [(dst & Hdst & Hd & Hl & Ho) [(src' & Hsrc' & Hd' & Hl' & _ & Ho') _]].
  rewrite Hdst in Hsrc'. injection Hsrc' as <-.
  rewrite <- Hd, <- Hl, <- Ho. done.
Qed.

(** C5.  Move construction and move assignment from a buffer [other]
    into a distinct buffer [this] leave [other] empty and non-owning
    (null data, zero length) and leave [this] holding the original data
    pointer, length and ownership flag of [other]; every other buffer
    is untouched.  Move construction takes storage that holds no object
    yet, move assignment an existing destination; both then succeed. *)
Theorem C5_move_transfers_and_nulls_source
    (this other : N) (σ : PaddleBuf.objects) (src : PaddleBuf.t) :
  this ≠ other →
  σ !! other = Some src →
  (σ !! this = None →
     ∃ σ', PaddleBuf.ctor_move this other σ = Some σ'
           ∧ moved this other src σ σ')
  ∧ (is_Some (σ !! this) →
     ∃ σ', PaddleBuf.assign_move this other σ = Some σ'
           ∧ moved this other src σ σ').
Proof.
  intros Hne Hsrc. split.
  - intros Hthis. eexists. split; [|by apply moved_intro].
    unfold PaddleBuf.ctor_move. by rewrite Hthis, Hsrc.
  - intros [dst Hthis]. eexists. split; [|by apply moved_intro].
    unfold PaddleBuf.assign_move. by rewrite Hthis, Hsrc.
Qed.

Lemma C5_move_transfers_and_nulls_source_witness :
  (1 ≠ 2
   ∧ ({[1 := PaddleBuf.Build 8 6 true; 2 := PaddleBuf.Build 5 3 true]}
        : PaddleBuf.objects) !! 2 = Some (PaddleBuf.Build 5 3 true)
   ∧ ({[2 := PaddleBuf.Build 5 3 true]} : PaddleBuf.objects) !! 1 = None)
  ∧ (∃ σ', PaddleBuf.ctor_move 1 2 {[2 := PaddleBuf.Build 5 3 true]} = Some σ'
           ∧ moved 1 2 (PaddleBuf.Build 5 3 true)
               {[2 := PaddleBuf.Build 5 3 true]} σ')
  ∧ (∃ σ', PaddleBuf.assign_move 1 2
             {[1 := PaddleBuf.Build 8 6 true; 2 := PaddleBuf.Build 5 3 true]}
           = Some σ'
           ∧ moved 1 2 (PaddleBuf.Build 5 3 true)
               {[1 := PaddleBuf.Build 8 6 true; 2 := PaddleBuf.Build 5 3 true]}
               σ').
Proof.
  split; [split; [discriminate|split; reflexivity]|]. split.
  - apply (C5_move_transfers_and_nulls_source
             1 2 {[2 := PaddleBuf.Build 5 3 true]} (PaddleBuf.Build 5 3 true));
      [discriminate|reflexivity|reflexivity].
  - apply (C5_move_transfers_and_nulls_source
             1 2 {[1 := PaddleBuf.Build 8 6 true; 2 := PaddleBuf.Build 5 3 true]}
             (PaddleBuf.Build 5 3 true));
      [discriminate|reflexivity|by eexists].
Defined.

Example move_runs :
  PaddleBuf.ctor_move 1 2 {[2 := PaddleBuf.Build 5 3 true]}
  = Some {[1 := PaddleBuf.Build 5 3 true; 2 := PaddleBuf.Build 0 0 false]}
  ∧ PaddleBuf.assign_move 1 2
      {[1 := PaddleBuf.Build 8 6 true; 2 := PaddleBuf.Build 5 3 true]}
    = Some {[1 := PaddleBuf.Build 5 3 true; 2 := PaddleBuf.Build 0 0 false]}.
Proof. split; reflexivity. Qed.

(** ** Claims about the enumerations and the predictor *)

(** C2.  [PaddleDtypeSize] is 4 on [FLOAT32] and 8 on [INT64], and
    these two distinct tags are all the tags of [PaddleDType]. *)
Theorem C2_PaddleDtypeSize_values :
  PaddleDtypeSize FLOAT32 = 4%Z
  ∧ PaddleDtypeSize INT64 = 8%Z
  ∧ FLOAT32 ≠ INT64
  ∧ ∀ dtype : PaddleDType, dtype = FLOAT32 ∨ dtype = INT64.
Proof.
  split; [done|]. split; [done|]. split; [done|].
  intros []; [by left|by right].
Qed.

(** C8.  The engine kinds are exactly the four enumerators [kNative],
    [kAnakin], [kAutoMixedTensorRT] and [kAnalysis], pairwise distinct,
    with [kNative] of value 0 and the others numbered on from it; the
    factory is instantiated with [kNative] when no engine is given and
    with the engine written otherwise. *)
Theorem C8_engine_kinds_closed_and_default :
  (∀ e : PaddleEngineKind, e ∈ PaddleEngineKind_enumerators)
  ∧ PaddleEngineKind_enumerators
    = [kNative; kAnakin; kAutoMixedTensorRT; kAnalysis]
  ∧ NoDup PaddleEngineKind_enumerators
  ∧ PaddleEngineKind_value kNative = 0%Z
  ∧ PaddleEngineKind_value <$> PaddleEngineKind_enumerators
    = [0; 1; 2; 3]%Z
  ∧ CreatePaddlePredictor_engine None = kNative
  ∧ ∀ e, CreatePaddlePredictor_engine (Some e) = e.
Proof.
  split.
  { intros []; unfold PaddleEngineKind_enumerators;
      rewrite !elem_of_cons; tauto. }
  split; [done|]. split.
  { unfold PaddleEngineKind_enumerators.
    repeat (apply NoDup_cons; split;
            [rewrite ?elem_of_cons, elem_of_nil; intuition discriminate|]).
    apply NoDup_nil_2. }
  done.
Qed.

(** C9.  A [PaddlePredictor] cannot be copied: its copy constructor and
    its copy assignment are deleted, and since the class thereby gets no
    move operation either, of the ways to get a predictor out of an
    existing one only [Clone()] is well-formed. *)
Theorem C9_predictor_only_Clone :
  PaddlePredictor.declared PaddlePredictor.copy_ctor
  = Some PaddlePredictor.deleted
  ∧ PaddlePredictor.declared PaddlePredictor.copy_assign
    = Some PaddlePredictor.deleted
  ∧ PaddlePredictor.implicit_move = false
  ∧ ∀ d : PaddlePredictor.derivation,
      PaddlePredictor.well_formed d = true ↔ d = PaddlePredictor.by_Clone.
Proof.
  split; [done|]. split; [done|]. split; [done|].
  intros []; split; (done || (vm_compute; discriminate)).
Qed.

(** ** Further properties of the inline members of [PaddleBuf] *)

(** X1.  The owning constructor only adds to the free store: the array
    it allocates was not live before, every array that was live keeps
    its size, the live addresses grow by exactly the new one, and
    [nullptr] does not become live. *)
Theorem X1_ctor_owning_frame (n : size_t) (h : heap)
    (b : PaddleBuf.t) (h' : heap) :
  PaddleBuf.ctor_owning n h = (b, h') →
  h !! PaddleBuf.data b = None
  ∧ (∀ q m, h !! q = Some m → h' !! q = Some m)
  ∧ dom h' = {[PaddleBuf.data b]} ∪ dom h
  ∧ size h' = S (size h)
  ∧ (h !! nullptr = None → h' !! nullptr = None).
Proof.
  unfold PaddleBuf.ctor_owning.
  destruct (new_char_array n h) as [p h1] eqn:Hnew. intros [= <- <-].
  apply new_char_array_spec in Hnew as (Hp & Hnone & ->).
  unfold PaddleBuf.data. simpl.
  split; [done|]. split.
  { intros q m Hq. rewrite lookup_insert_ne; [done|].
    intros ->. unfold ptr, size_t in *. congruence. }
  split; [apply dom_insert_L|]. split; [by apply map_size_insert_None|].
  intros Hnull. by rewrite lookup_insert_ne.
Qed.

Lemma X1_ctor_owning_frame_witness :
  PaddleBuf.ctor_owning 7 {[1 := 3]}
  = (PaddleBuf.Build 2 7 true, {[1 := 3; 2 := 7]})
  ∧ ({[1 := 3]} : heap) !! 2 = None
  ∧ size ({[1 := 3; 2 := 7]} : heap) = 2%nat.
Proof.
  assert (PaddleBuf.ctor_owning 7 {[1 := 3]}
          = (PaddleBuf.Build 2 7 true, {[1 := 3; 2 := 7]})) as Hrun
    by (vm_compute; reflexivity).
  destruct (X1_ctor_owning_frame 7 {[1 := 3]} _ _ Hrun)
    as (Hfresh & _ & _ & Hsize & _).
  split; [exact Hrun|]. split; [exact Hfresh|exact Hsize].
Defined.

(** X2.  Two owning buffers constructed one after the other never
    alias: their data pointers differ, both are non-null, and after the
    second construction both arrays are live with their own sizes. *)
Theorem X2_ctor_owning_no_alias (n m : size_t) (h h1 h2 : heap)
    (b1 b2 : PaddleBuf.t) :
  PaddleBuf.ctor_owning n h = (b1, h1) →
  PaddleBuf.ctor_owning m h1 = (b2, h2) →
  PaddleBuf.data b1 ≠ PaddleBuf.data b2
  ∧ PaddleBuf.data b1 ≠ nullptr ∧ PaddleBuf.data b2 ≠ nullptr
  ∧ h2 !! PaddleBuf.data b1 = Some n
  ∧ h2 !! PaddleBuf.data b2 = Some m.
Proof.
  unfold PaddleBuf.ctor_owning.
  destruct (new_char_array n h) as [p1 k1] eqn:Hnew1. intros [= <- <-].
  destruct (new_char_array m k1) as [p2 k2] eqn:Hnew2. intros [= <- <-].
  apply new_char_array_spec in Hnew1 as (Hp1 & Hnone1 & ->).
  apply new_char_array_spec in Hnew2 as (Hp2 & Hnone2 & ->).
  unfold PaddleBuf.data. simpl.
  assert (p1 ≠ p2) as Hne.
  { intros <-. by rewrite lookup_insert_eq in Hnone2. }
  split; [done|]. split; [done|]. split; [done|]. split.
  - rewrite lookup_insert_ne by done. apply lookup_insert_eq.
  - apply lookup_insert_eq.
Qed.

Lemma X2_ctor_owning_no_alias_witness :
  (PaddleBuf.ctor_owning 7 {[1 := 3]}
   = (PaddleBuf.Build 2 7 true, {[1 := 3; 2 := 7]})
   ∧ PaddleBuf.ctor_owning 0 {[1 := 3; 2 := 7]}
     = (PaddleBuf.Build 3 0 true, {[1 := 3; 2 := 7; 3 := 0]}))
  ∧ (2 : N) ≠ 3
  ∧ ({[1 := 3; 2 := 7; 3 := 0]} : heap) !! 2 = Some 7.
Proof.
  assert (PaddleBuf.ctor_owning 7 {[1 := 3]}
          = (PaddleBuf.Build 2 7 true, {[1 := 3; 2 := 7]})) as Hrun1
    by (vm_compute; reflexivity).
  assert (PaddleBuf.ctor_owning 0 {[1 := 3; 2 := 7]}
          = (PaddleBuf.Build 3 0 true, {[1 := 3; 2 := 7; 3 := 0]})) as Hrun2
    by (vm_compute; reflexivity).
  destruct (X2_ctor_owning_no_alias 7 0 _ _ _ _ _ Hrun1 Hrun2)
    as (Hne & _ & _ & Hlive & _).
  split; [by split|]. split; [exact Hne|exact Hlive].
Defined.

(** X3.  For an owning buffer [empty()] says nothing about [data()]: a
    buffer constructed as owning with size [n] is empty exactly when
    [n = 0], yet for every [n], zero included, its [data()] is non-null
    and points to a live array, so the buffer is never the
    default-constructed one. *)
Theorem X3_ctor_owning_zero_length (n : size_t) (h : heap) :
  (PaddleBuf.empty (PaddleBuf.ctor_owning n h).1 = true ↔ n = 0)
  ∧ PaddleBuf.data (PaddleBuf.ctor_owning n h).1 ≠ nullptr
  ∧ (PaddleBuf.ctor_owning n h).2
      !! PaddleBuf.data (PaddleBuf.ctor_owning n h).1 = Some n
  ∧ (PaddleBuf.ctor_owning n h).1 ≠ PaddleBuf.ctor_default
  ∧ (PaddleBuf.ctor_owning n h).2 ≠ h.
Proof.
  unfold PaddleBuf.ctor_owning.
  destruct (new_char_array n h) as [p h1] eqn:Hnew.
  apply new_char_array_spec in Hnew as (Hp & Hnone & ->).
  unfold PaddleBuf.empty, PaddleBuf.data. simpl.
  split; [apply N.eqb_eq|]. split; [done|].
  split; [apply lookup_insert_eq|]. split.
  - intros [= Hnull _]. done.
  - intros Heq. rewrite <- Heq, lookup_insert_eq in Hnone. done.
Qed.

(** X4.  Rebuilding a buffer from what its accessors report, with the
    external constructor, keeps [data()] and [length()] and never owns;
    it gives back the very same buffer exactly when that buffer did not
    own its memory. *)
Theorem X4_ctor_external_roundtrip (b : PaddleBuf.t) :
  PaddleBuf.data
    (PaddleBuf.ctor_external (PaddleBuf.data b) (PaddleBuf.length b))
  = PaddleBuf.data b
  ∧ PaddleBuf.length
      (PaddleBuf.ctor_external (PaddleBuf.data b) (PaddleBuf.length b))
    = PaddleBuf.length b
  ∧ memory_owned_
      (PaddleBuf.ctor_external (PaddleBuf.data b) (PaddleBuf.length b))
    = false
  ∧ (PaddleBuf.ctor_external (PaddleBuf.data b) (PaddleBuf.length b) = b
     ↔ memory_owned_ b = false).
Proof.
  destruct b as [d l o].
  unfold PaddleBuf.ctor_external, PaddleBuf.data, PaddleBuf.length. simpl.
  do 3 (split; [done|]). split.
  - by intros [= <-].
  - by intros ->.
Qed.
